(** * Shallow embedding of micro-company/http-trace-example

    The main program is [src/main.go] (a Gin server: [sync.Map] store,
    [atomic.Int64] id counter, OpenTelemetry spans).  Two earlier
    net/http variants of the same service ([src/unnamed/part_001] and
    [src/unnamed/part_002]) share the data model; where they differ from
    [main.go] (their [respondError]) they get a definition of their own,
    suffixed [_nethttp].

    Go [int] is 64 bits wide; it is modelled as [Z] with its wrap-around
    written out.  A Go [map[int]Item] / [sync.Map] is a [gmap Z Item]. *)

From Stdlib Require Import ZArith String Ascii List Sorted.
From stdpp Require Import base gmap strings.
Import ListNotations.
Open Scope Z_scope.

(* ------------------------------------------------------------------ *)
(** ** Types and globals *)

(** [type Item struct { ID int; Name string }] *)
Record Item := mkItem { ID : Z; Name : string }.

(** The two globals [store sync.Map] and [idSeq atomic.Int64]. *)
Record State := mkState { store : gmap Z Item; idSeq : Z }.

Definition init_state : State := mkState ∅ 0.

(** Two's-complement wrap-around of a 64-bit signed integer. *)
Definition wrap_int64 (z : Z) : Z :=
  let m := z mod 2^64 in if m >=? 2^63 then m - 2^64 else m.

(** [idSeq.Add(1)]: atomically increments the counter (wrapping) and
    returns the new value. *)
Definition idSeq_Add1 (st : State) : State * Z :=
  let v := wrap_int64 (idSeq st + 1) in (mkState (store st) v, v).

(* ------------------------------------------------------------------ *)
(** ** strconv.Atoi (64-bit [int]) *)

Inductive NumErr := ErrSyntax | ErrRange.

Definition is_digit (c : ascii) : bool :=
  (48 <=? nat_of_ascii c)%nat && (nat_of_ascii c <=? 57)%nat.

Definition digit_val (c : ascii) : Z := Z.of_nat (nat_of_ascii c) - 48.

(** Fast path loop: [for _, ch := range []byte(s) { ch -= '0'; if ch > 9
    { syntax error }; n = n*10 + int(ch) }].  At most 18 digits, so [n]
    never overflows there. *)
Fixpoint atoi_fast_loop (s : string) (n : Z) : Z + NumErr :=
  match s with
  | EmptyString => inl n
  | String c s' =>
      if is_digit c then atoi_fast_loop s' (n * 10 + digit_val c)
      else inr ErrSyntax
  end.

Definition max_uint64 : Z := 2^64 - 1.
Definition uint64_cutoff : Z := max_uint64 / 10 + 1.

(** [ParseUint(s, 10, 64)] loop, after the empty-string check. *)
Fixpoint parse_uint10_loop (s : string) (n : Z) : Z + NumErr :=
  match s with
  | EmptyString => inl n
  | String c s' =>
      if negb (is_digit c) then inr ErrSyntax
      else if n >=? uint64_cutoff then inr ErrRange
      else
        let n1 := n * 10 + digit_val c in
        if n1 >? max_uint64 then inr ErrRange else parse_uint10_loop s' n1
  end.

Definition ParseUint10 (s : string) : Z + NumErr :=
  match s with
  | EmptyString => inr ErrSyntax
  | _ => parse_uint10_loop s 0
  end.

(** [ParseInt(s, 10, 0)] with [IntSize = 64]. *)
Definition ParseInt10 (s : string) : Z + NumErr :=
  match s with
  | EmptyString => inr ErrSyntax
  | String c rest =>
      let '(neg, body) :=
        if Ascii.eqb c "+"%char then (false, rest)
        else if Ascii.eqb c "-"%char then (true, rest)
        else (false, s) in
      match ParseUint10 body with
      | inr ErrSyntax => inr ErrSyntax
      | r =>
          let un := match r with inl u => u | inr _ => max_uint64 end in
          let cutoff := 2^63 in
          if negb neg && (un >=? cutoff) then inr ErrRange
          else if neg && (un >? cutoff) then inr ErrRange
          else inl (if neg then - un else un)
      end
  end.

(** [strconv.Atoi]: fast path for [0 < len(s) < 19], otherwise
    [ParseInt(s, 10, 0)]. *)
Definition Atoi (s : string) : Z + NumErr :=
  let n := String.length s in
  if (0 <? n)%nat && (n <? 19)%nat then
    match s with
    | EmptyString => inr ErrSyntax
    | String c rest =>
        if Ascii.eqb c "-"%char || Ascii.eqb c "+"%char then
          match rest with
          | EmptyString => inr ErrSyntax
          | _ =>
              match atoi_fast_loop rest 0 with
              | inl v => inl (if Ascii.eqb c "-"%char then - v else v)
              | e => e
              end
          end
        else atoi_fast_loop s 0
    end
  else ParseInt10 s.

(* ------------------------------------------------------------------ *)
(** ** Go errors *)

(** The error values that reach [respondError]: a [*strconv.NumError]
    from [Atoi] (its input string kept), an [errors.New] message, or a
    JSON binding error carrying the decoder's message. *)
Inductive GoError :=
| ENumAtoi (input : string) (e : NumErr)
| ENew (msg : string)
| EBind (msg : string).

Definition dquote : string := String (ascii_of_nat 34) EmptyString.

(** [err.Error()].  For a [NumError] the input is shown with
    [strconv.Quote]; here it is wrapped in double quotes, which is what
    [Quote] does for printable ASCII input. *)
Definition error_string (e : GoError) : string :=
  match e with
  | ENumAtoi s k =>
      String.concat "" ["strconv.Atoi: parsing "; dquote; s; dquote; ": ";
        match k with ErrSyntax => "invalid syntax" | ErrRange => "value out of range" end]
  | ENew m => m
  | EBind m => m
  end.

(* ------------------------------------------------------------------ *)
(** ** Spans (the part of the OpenTelemetry SDK the program touches) *)

(** [codes.Unset = 0], [codes.Error = 1], [codes.Ok = 2]. *)
Inductive StatusCode := Unset | Error | Ok.

Definition code_rank (c : StatusCode) : Z :=
  match c with Unset => 0 | Error => 1 | Ok => 2 end.

Inductive AttrValue := ABool (b : bool) | AString (s : string).

(** An [exception] event added by [span.RecordError]: the error text,
    the caller's attributes, and whether [WithStackTrace(true)] was
    passed. *)
Record Event := mkEvent {
  ev_message : string;
  ev_attrs : list (string * AttrValue);
  ev_stack : bool }.

Record Span := mkSpan {
  sp_events : list Event;
  sp_status : StatusCode;
  sp_desc : string }.

Definition new_span : Span := mkSpan [] Unset "".

Definition RecordError (sp : Span) (err : string)
    (attrs : list (string * AttrValue)) (stack : bool) : Span :=
  mkSpan (sp_events sp ++ [mkEvent err attrs stack]) (sp_status sp) (sp_desc sp).

(** SDK [SetStatus]: ignored when the current code ranks higher; the
    description is kept only for [Error]. *)
Definition SetStatus (sp : Span) (c : StatusCode) (desc : string) : Span :=
  if code_rank (sp_status sp) >? code_rank c then sp
  else mkSpan (sp_events sp) c (match c with Error => desc | _ => "" end).

(* ------------------------------------------------------------------ *)
(** ** The request context ([*gin.Context]) *)

(** A JSON response body: an item, a list of items, [gin.H{"error": msg}],
    or no body ([c.Status] / [c.AbortWithStatus]). *)
Inductive Body := BItem (i : Item) | BItems (l : list Item) | BError (msg : string) | BEmpty.

(** The span is the one [otelgin.Middleware] started for the request
    ([traceSpan] returns it); [c_resp] is the status and body written so
    far; [c_aborted] is set by [c.Abort]. *)
Record Ctx := mkCtx { c_span : Span; c_resp : option (Z * Body); c_aborted : bool }.

Definition new_ctx : Ctx := mkCtx new_span None false.

Definition set_span (c : Ctx) (sp : Span) : Ctx := mkCtx sp (c_resp c) (c_aborted c).

(** Writing a response: once the header has been written, later writes
    do not change the status (Gin prints a warning and keeps it). *)
Definition write_resp (c : Ctx) (status : Z) (b : Body) : Ctx :=
  match c_resp c with
  | None => mkCtx (c_span c) (Some (status, b)) (c_aborted c)
  | Some _ => c
  end.

(** [c.JSON(status, obj)] *)
Definition JSON (c : Ctx) (status : Z) (b : Body) : Ctx := write_resp c status b.

(** [c.Status(code)] *)
Definition StatusOnly (c : Ctx) (status : Z) : Ctx := write_resp c status BEmpty.

(** [c.AbortWithStatus(code)] *)
Definition AbortWithStatus (c : Ctx) (status : Z) : Ctx :=
  let c' := write_resp c status BEmpty in mkCtx (c_span c') (c_resp c') true.

(* ------------------------------------------------------------------ *)
(** ** respondError *)

(** [main.go]: always record the error event; mark the span failed only
    for [status >= 500]; reply [{"error": err.Error()}]. *)
Definition respondError (c : Ctx) (err : GoError) (status : Z) : Ctx :=
  let msg := error_string err in
  let sp := RecordError (c_span c) msg [] false in
  let sp := if status >=? 500 then SetStatus sp Error msg else sp in
  JSON (set_span c sp) status (BError msg).

(** [http.StatusText] for the codes the program uses. *)
Definition StatusText (code : Z) : string :=
  if code =? 400 then "Bad Request"
  else if code =? 404 then "Not Found"
  else if code =? 405 then "Method Not Allowed"
  else if code =? 500 then "Internal Server Error"
  else "".

(** [part_001] / [part_002]: record the error with an [http.status_text]
    attribute and set the status to [Error] unconditionally, then
    [http.Error(w, err.Error(), status)]. *)
Definition respondError_nethttp (c : Ctx) (err : GoError) (status : Z) : Ctx :=
  let msg := error_string err in
  let sp := RecordError (c_span c) msg [("http.status_text", AString (StatusText status))] false in
  let sp := SetStatus sp Error msg in
  write_resp (set_span c sp) status (BError msg).

(* ------------------------------------------------------------------ *)
(** ** CRUD handlers of main.go *)

(** The outcome of [c.ShouldBindJSON(&in)] into [struct{ Name string }]:
    a decoding error, or the decoded name ([""] when the field is
    missing).  JSON decoding itself is Gin's. *)
Inductive Json := JMalformed (msg : string) | JObj (name : string).

Definition createItem (st : State) (c : Ctx) (body : Json) : State * Ctx :=
  match body with
  | JMalformed m => (st, respondError c (EBind m) 400)
  | JObj name =>
      let '(st1, id) := idSeq_Add1 st in
      let item := mkItem id name in
      (mkState (<[id := item]> (store st1)) (idSeq st1), JSON c 201 (BItem item))
  end.

(** [store.Range] visits the entries in an unspecified order; the model
    fixes one ([map_to_list]). *)
Definition listItems (st : State) (c : Ctx) : State * Ctx :=
  (st, JSON c 200 (BItems (map snd (map_to_list (store st))))).

Definition getItem (st : State) (c : Ctx) (param : string) : State * Ctx :=
  match Atoi param with
  | inr e => (st, respondError c (ENumAtoi param e) 400)
  | inl id =>
      match store st !! id with
      | None => (st, respondError c (ENew "not found") 404)
      | Some item => (st, JSON c 200 (BItem item))
      end
  end.

Definition updateItem (st : State) (c : Ctx) (param : string) (body : Json) : State * Ctx :=
  match Atoi param with
  | inr e => (st, respondError c (ENumAtoi param e) 400)
  | inl id =>
      match store st !! id with
      | None => (st, respondError c (ENew "not found") 404)
      | Some item =>
          match body with
          | JMalformed m => (st, respondError c (EBind m) 400)
          | JObj name =>
              let item' := mkItem (ID item) name in
              (mkState (<[id := item']> (store st)) (idSeq st), JSON c 200 (BItem item'))
          end
      end
  end.

Definition deleteItem (st : State) (c : Ctx) (param : string) : State * Ctx :=
  match Atoi param with
  | inr e => (st, respondError c (ENumAtoi param e) 400)
  | inl id =>
      match store st !! id with
      | None => (st, respondError c (ENew "not found") 404)
      | Some _ => (mkState (delete id (store st)) (idSeq st), StatusOnly c 204)
      end
  end.

(* ------------------------------------------------------------------ *)
(** ** Routes, panics and the recovery middleware *)

(** A request after Gin's routing: the route and its raw inputs. *)
Inductive Request :=
| RCreate (body : Json)                 (* POST   /items     *)
| RList                                 (* GET    /items     *)
| RGet (id : string)                    (* GET    /items/:id *)
| RUpdate (id : string) (body : Json)   (* PUT    /items/:id *)
| RDelete (id : string)                 (* DELETE /items/:id *)
| RFail                                 (* GET    /fail      *)
| RPanic.                               (* GET    /panic     *)

(** A value passed to [panic]; the program only panics with strings. *)
Inductive PanicVal := PString (s : string).

(** [fmt.Sprintf("%T", rec)] *)
Definition panic_type_name (v : PanicVal) : string :=
  match v with PString _ => "string" end.

(** [fmt.Sprint(rec)] *)
Definition panic_sprint (v : PanicVal) : string :=
  match v with PString s => s end.

(** A handler either returns or unwinds with a panic. *)
Inductive Outcome :=
| Returned (st : State) (c : Ctx)
| Panicked (st : State) (c : Ctx) (v : PanicVal).

Definition ret (p : State * Ctx) : Outcome := Returned (fst p) (snd p).

Definition dispatch (st : State) (c : Ctx) (r : Request) : Outcome :=
  match r with
  | RCreate b => ret (createItem st c b)
  | RList => ret (listItems st c)
  | RGet p => ret (getItem st c p)
  | RUpdate p b => ret (updateItem st c p b)
  | RDelete p => ret (deleteItem st c p)
  | RFail => ret (st, respondError c (ENew "simulated server failure") 500)
  | RPanic => Panicked st c (PString "simulated panic")
  end.

(** [recoveryWithOtel]: the deferred [recover()] around [c.Next()].
    [stack] is what [debug.Stack()] returns at that point. *)
Definition recoveryWithOtel (stack : string) (o : Outcome) : State * Ctx :=
  match o with
  | Returned st c => (st, c)
  | Panicked st c rec =>
      let err := String.append "panic: " (panic_sprint rec) in
      let sp := RecordError (c_span c) err
                  [("exception.escaped", ABool true);
                   ("exception.type", AString (panic_type_name rec));
                   ("exception.message", AString (panic_sprint rec));
                   ("exception.stacktrace", AString stack)] true in
      let sp := SetStatus sp Error "panic" in
      (st, AbortWithStatus (set_span c sp) 500)
  end.

(** One request through the middleware chain: a fresh span, the
    recovery middleware, then the route's handler. *)
Definition handle (stack : string) (st : State) (r : Request) : State * Ctx :=
  recoveryWithOtel stack (dispatch st new_ctx r).

(** The server loop: requests served one after the other on the shared
    state. *)
Fixpoint serve (stack : string) (st : State) (rs : list Request) : State * list Ctx :=
  match rs with
  | [] => (st, [])
  | r :: rs' =>
      let '(st1, c) := handle stack st r in
      let '(st2, cs) := serve stack st1 rs' in
      (st2, c :: cs)
  end.

Definition resp_status (c : Ctx) : option Z := fst <$> c_resp c.

(* ------------------------------------------------------------------ *)
(** ** Auxiliary definitions for the properties *)

(** The allocator state after [n] calls of [idSeq.Add(1)]. *)
Fixpoint alloc_iter (n : nat) (st : State) : State :=
  match n with
  | O => st
  | S n' => fst (idSeq_Add1 (alloc_iter n' st))
  end.

(** The value returned by the [(n+1)]-th call from the initial state. *)
Definition nth_alloc (n : nat) : Z := snd (idSeq_Add1 (alloc_iter n init_state)).

(** Requests that call [idSeq.Add(1)]: a create whose body binds. *)
Definition create_ok (r : Request) : bool :=
  match r with RCreate (JObj _) => true | _ => false end.

(** The id in a [201 Created] response, if any. *)
Definition created_id (c : Ctx) : list Z :=
  match c_resp c with
  | Some (s, BItem it) => if s =? 201 then [ID it] else []
  | _ => []
  end.

(** Every key equals the [ID] of the item stored under it, and no two
    entries carry the same [ID]. *)
Definition store_inv (st : State) : Prop :=
  (forall k it, store st !! k = Some it -> ID it = k)
  /\ (forall k1 k2 it1 it2, store st !! k1 = Some it1 -> store st !! k2 = Some it2 ->
        ID it1 = ID it2 -> k1 = k2).

Definition keys_match (m : gmap Z Item) : Prop :=
  forall k it, m !! k = Some it -> ID it = k.

(** The routes that take an [:id] path parameter. *)
Definition item_op (r : Request) : bool :=
  match r with RGet _ | RUpdate _ _ | RDelete _ => true | _ => false end.

Module Interleaving.

(** The program counters of [updateItem] and [deleteItem] in [main.go]
    at the granularity of [sync.Map] operations, each of which is atomic.
    The path parameter has already been parsed, and the update's body
    bound, since both are thread-local. *)
Inductive Thread :=
| TUpdLoad (id : Z) (name : string)   (* before [store.Load(id)] in updateItem *)
| TUpdStore (id : Z) (item : Item)    (* before [store.Store(id, item)]        *)
| TDelLoad (id : Z)                   (* before [store.Load(id)] in deleteItem *)
| TDelDelete (id : Z)                 (* before [store.Delete(id)]             *)
| TDone (status : Z).                 (* response written                      *)

(** One atomic step of one thread on the shared map. *)
Definition thread_step (m : gmap Z Item) (t : Thread) : gmap Z Item * Thread :=
  match t with
  | TUpdLoad id name =>
      match m !! id with
      | None => (m, TDone 404)
      | Some item => (m, TUpdStore id (mkItem (ID item) name))
      end
  | TUpdStore id item => (<[id := item]> m, TDone 200)
  | TDelLoad id =>
      match m !! id with
      | None => (m, TDone 404)
      | Some _ => (m, TDelDelete id)
      end
  | TDelDelete id => (delete id m, TDone 204)
  | TDone s => (m, TDone s)
  end.

(** Run a schedule: each entry names the thread that takes the next
    atomic step. *)
Fixpoint run (m : gmap Z Item) (ts : list Thread) (sched : list nat)
    : gmap Z Item * list Thread :=
  match sched with
  | [] => (m, ts)
  | k :: sched' =>
      match ts !! k with
      | None => run m ts sched'
      | Some t => let '(m', t') := thread_step m t in run m' (<[k := t']> ts) sched'
      end
  end.

Definition m0 : gmap Z Item := {[1 := mkItem 1 "widget"]}.

End Interleaving.
Import Interleaving.

(** A string [strconv.Atoi] accepts by its shape: an optional [+] or [-]
    followed by at least one decimal digit. *)
Fixpoint all_digits (s : string) : bool :=
  match s with
  | EmptyString => true
  | String c s' => is_digit c && all_digits s'
  end.

Definition int_shaped (s : string) : bool :=
  match s with
  | EmptyString => false
  | String c rest =>
      if Ascii.eqb c "+"%char || Ascii.eqb c "-"%char
      then negb (String.eqb rest "") && all_digits rest
      else all_digits s
  end.

(** The ids in the store lie between 1 and the counter. *)
Definition keys_bounded (st : State) : Prop :=
  forall k it, store st !! k = Some it -> 1 <= k <= idSeq st.

(* ------------------------------------------------------------------ *)
(** ** The net/http variants ([part_001], [part_002]) *)

Module NetHTTP.

(** The [http.ResponseWriter]: the status sent (set by the first
    [WriteHeader], or 200 by the first [Write]), the bodies written, and
    the status field of [part_002]'s [statusRecorder], which starts at
    [http.StatusOK] and is overwritten by every [WriteHeader] call. *)
Record Writer := mkWriter { w_status : option Z; w_body : list Body; rec_status : Z }.

Definition new_writer : Writer := mkWriter None [] 200.

(** [sr.WriteHeader(code)]: record [code], then forward; a second
    [WriteHeader] on the underlying writer is superfluous and ignored. *)
Definition WriteHeader (w : Writer) (code : Z) : Writer :=
  mkWriter (match w_status w with None => Some code | Some s => Some s end) (w_body w) code.

(** [w.Write(...)] ([json.NewEncoder(w).Encode]): sends 200 if no header
    was written yet. *)
Definition Write (w : Writer) (b : Body) : Writer :=
  mkWriter (match w_status w with None => Some 200 | Some s => Some s end)
           (w_body w ++ [b]) (rec_status w).

(** [http.Error(w, msg, code)]: [WriteHeader(code)] then the message. *)
Definition http_Error (w : Writer) (msg : string) (code : Z) : Writer :=
  Write (WriteHeader w code) (BError msg).

(** The span of [r.Context()] (started by [otelhttp.NewHandler]) and the
    response writer. *)
Record NCtx := mkNCtx { n_span : Span; n_w : Writer }.

Definition new_nctx : NCtx := mkNCtx new_span new_writer.

Definition set_w (c : NCtx) (w : Writer) : NCtx := mkNCtx (n_span c) w.

(** [respondError] of the net/http variants. *)
Definition respondError (c : NCtx) (err : GoError) (status : Z) : NCtx :=
  let msg := error_string err in
  let sp := RecordError (n_span c) msg [("http.status_text", AString (StatusText status))] false in
  let sp := SetStatus sp Error msg in
  mkNCtx sp (http_Error (n_w c) msg status).

Definition createItem (st : State) (c : NCtx) (body : Json) : State * NCtx :=
  match body with
  | JMalformed m => (st, respondError c (EBind m) 400)
  | JObj name =>
      let v := wrap_int64 (idSeq st + 1) in       (* idSeq++ *)
      let item := mkItem v name in
      (mkState (<[v := item]> (store st)) v,
       set_w c (Write (WriteHeader (n_w c) 201) (BItem item)))
  end.

(** [for _, it := range store]: Go's map order is unspecified; the model
    fixes one. *)
Definition listItems (st : State) (c : NCtx) : State * NCtx :=
  (st, set_w c (Write (n_w c) (BItems (map snd (map_to_list (store st)))))).

Definition getItem (st : State) (c : NCtx) (id : Z) : State * NCtx :=
  match store st !! id with
  | None => (st, respondError c (ENew "not found") 404)
  | Some item => (st, set_w c (Write (n_w c) (BItem item)))
  end.

Definition updateItem (st : State) (c : NCtx) (id : Z) (body : Json) : State * NCtx :=
  match store st !! id with
  | None => (st, respondError c (ENew "not found") 404)
  | Some item =>
      match body with
      | JMalformed m => (st, respondError c (EBind m) 400)
      | JObj name =>
          let item' := mkItem (ID item) name in
          (mkState (<[id := item']> (store st)) (idSeq st), set_w c (Write (n_w c) (BItem item')))
      end
  end.

Definition deleteItem (st : State) (c : NCtx) (id : Z) : State * NCtx :=
  match store st !! id with
  | None => (st, respondError c (ENew "not found") 404)
  | Some _ => (mkState (delete id (store st)) (idSeq st), set_w c (WriteHeader (n_w c) 204))
  end.

(** [itemsHandler]: [POST /items] and [GET /items]. *)
Definition itemsHandler (st : State) (c : NCtx) (method : string) (body : Json) : State * NCtx :=
  if String.eqb method "POST" then createItem st c body
  else if String.eqb method "GET" then listItems st c
  else (st, set_w c (http_Error (n_w c) "method not allowed" 405)).

(** [itemHandler]: [GET], [PUT], [DELETE /items/{id}]; [path] is
    [r.URL.Path], which the mux only routes here when it starts with
    ["/items/"]. *)
Definition itemHandler (st : State) (c : NCtx) (method path : string) (body : Json)
    : State * NCtx :=
  let idStr := String.substring 7 (String.length path) path in
  match Atoi idStr with
  | inr e =>
      (st, respondError c (ENew (String.append "invalid id: " (error_string (ENumAtoi idStr e)))) 400)
  | inl id =>
      if String.eqb method "GET" then getItem st c id
      else if String.eqb method "PUT" then updateItem st c id body
      else if String.eqb method "DELETE" then deleteItem st c id
      else (st, set_w c (http_Error (n_w c) "method not allowed" 405))
  end.

(** The line [part_002]'s [loggingMiddleware] prints after serving. *)
Record LogLine := mkLog { l_method : string; l_path : string; l_status : Z }.

(** [otelhttp.NewHandler(loggingMiddleware(handler))] on the two mux
    patterns: ["/items"] goes to [itemsHandler], paths under ["/items/"]
    to [itemHandler]. *)
Definition serve_logged (st : State) (method path : string) (body : Json)
    : State * NCtx * LogLine :=
  let '(st', c) :=
    if String.eqb path "/items" then itemsHandler st new_nctx method body
    else itemHandler st new_nctx method path body in
  (st', c, mkLog method path (rec_status (n_w c))).

End NetHTTP.

(** Concurrent deletes in the net/http variants: [deleteItem] checks and
    deletes under one [storeMu.Lock()], so each delete is one atomic
    step. *)
Module NetInterleaving.

Inductive Thread :=
| TDel (id : Z)          (* before [storeMu.Lock()] in deleteItem *)
| TDone (status : Z).

Definition thread_step (m : gmap Z Item) (t : Thread) : gmap Z Item * Thread :=
  match t with
  | TDel id =>
      match m !! id with
      | Some _ => (delete id m, TDone 204)
      | None => (m, TDone 404)
      end
  | TDone s => (m, TDone s)
  end.

Fixpoint run (m : gmap Z Item) (ts : list Thread) (sched : list nat)
    : gmap Z Item * list Thread :=
  match sched with
  | [] => (m, ts)
  | k :: sched' =>
      match ts !! k with
      | None => run m ts sched'
      | Some t => let '(m', t') := thread_step m t in run m' (<[k := t']> ts) sched'
      end
  end.

Definition is_204 (t : Thread) : nat :=
  match t with TDone s => if s =? 204 then 1 else 0 | TDel _ => 0 end.

(** The number of threads that answered 204. *)
Fixpoint count_204 (ts : list Thread) : nat :=
  match ts with [] => 0 | t :: ts' => is_204 t + count_204 ts' end.

End NetInterleaving.

(** All threads are deletes of [id] or finished. *)
Definition dels_of (id : Z) (ts : list NetInterleaving.Thread) : Prop :=
  Forall (fun t => match t with NetInterleaving.TDel j => j = id | _ => True end) ts.

(* ------------------------------------------------------------------ *)
(** ** Sample evaluations *)

Example Atoi_42 : Atoi "42" = inl 42. Proof. reflexivity. Qed.
Example Atoi_neg : Atoi "-7" = inl (-7). Proof. reflexivity. Qed.
Example Atoi_plus : Atoi "+007" = inl 7. Proof. reflexivity. Qed.
Example Atoi_abc : Atoi "abc" = inr ErrSyntax. Proof. reflexivity. Qed.
Example Atoi_empty : Atoi "" = inr ErrSyntax. Proof. reflexivity. Qed.
Example Atoi_sign_only : Atoi "-" = inr ErrSyntax. Proof. reflexivity. Qed.
Example Atoi_max : Atoi "9223372036854775807" = inl (2^63 - 1). Proof. reflexivity. Qed.
Example Atoi_min : Atoi "-9223372036854775808" = inl (- 2^63). Proof. reflexivity. Qed.
Example Atoi_over : Atoi "9223372036854775808" = inr ErrRange. Proof. reflexivity. Qed.
Example Atoi_long_bad : Atoi "12345678901234567890x" = inr ErrSyntax. Proof. reflexivity. Qed.

Example demo_run :
  let '(st, cs) := serve "" init_state
      [RCreate (JObj "widget"); RCreate (JObj "gadget"); RGet "1";
       RUpdate "1" (JObj "widget v2"); RDelete "1"; RGet "1"; RGet "abc"] in
  map resp_status cs = [Some 201; Some 201; Some 200; Some 200; Some 204; Some 404; Some 400]
  /\ store st !! 2 = Some (mkItem 2 "gadget") /\ store st !! 1 = None.
Proof. vm_compute. auto. Qed.

(* ------------------------------------------------------------------ *)
(** ** Helper lemmas *)

Lemma respondError_new_ctx err status :
  respondError new_ctx err status =
  mkCtx (mkSpan [mkEvent (error_string err) [] false]
                (if status >=? 500 then Error else Unset)
                (if status >=? 500 then error_string err else ""))
        (Some (status, BError (error_string err))) false.
Proof. unfold respondError. by destruct (status >=? 500). Qed.

Ltac unfold_handlers :=
  unfold handle, dispatch, ret, recoveryWithOtel, createItem, listItems,
    getItem, updateItem, deleteItem, idSeq_Add1 in *.

Ltac go_status :=
  repeat first [ rewrite respondError_new_ctx | case_match ]; cbn in *.

Lemma handle_status_policy stack st r :
  let c := snd (handle stack st r) in
  sp_status (c_span c) = Error <-> (exists s, resp_status c = Some s /\ 500 <= s).
Proof.
  destruct r; unfold_handlers; cbn; go_status;
    split; intros Hst; try discriminate;
    try (destruct Hst as (s & Hs & Hle); simplify_eq; lia); eauto with lia.
Qed.

Lemma handle_client_fault_event stack st r :
  let c := snd (handle stack st r) in
  resp_status c = Some 400 \/ resp_status c = Some 404 ->
  length (sp_events (c_span c)) = 1%nat /\ sp_status (c_span c) = Unset.
Proof.
  destruct r; unfold_handlers; cbn; go_status; intros Hs;
    destruct Hs as [Hs | Hs]; simplify_eq; auto.
Qed.

Lemma serve_length stack st rs : length (snd (serve stack st rs)) = length rs.
Proof.
  revert st. induction rs as [|r rs IH]; intros st; cbn; [done|].
  destruct (handle stack st r) as [st1 c]. specialize (IH st1).
  destruct (serve stack st1 rs) as [st2 cs]. cbn in *. by rewrite IH.
Qed.

(* ------------------------------------------------------------------ *)
(** ** C1: span status policy of respondError *)

(** C1 (counterexample): in the net/http variants ([part_001],
    [part_002]) [respondError] marks the span failed for a 404, so
    "Error if and only if status >= 500" fails there. *)
Lemma C1_nethttp_404_marks_error :
  sp_status (c_span (respondError_nethttp new_ctx (ENew "not found") 404)) = Error
  /\ 404 < 500.
Proof. split; [reflexivity | lia]. Qed.

(** C1 (amended): in [main.go], [respondError] always records one error
    event and sets the span status to [Error] exactly when the status is
    [>= 500]; over every request of the program the span ends failed iff
    the response status is 5xx, and a 400 or 404 response leaves one
    error event and an unset status.  The net/http variants' respondError
    sets [Error] for every status. *)
Theorem C1_respondError_policy :
  (forall err status,
     let c := respondError new_ctx err status in
     sp_events (c_span c) = [mkEvent (error_string err) [] false]
     /\ (sp_status (c_span c) = Error <-> 500 <= status)
     /\ resp_status c = Some status)
  /\ (forall stack st r,
        let c := snd (handle stack st r) in
        sp_status (c_span c) = Error <-> (exists s, resp_status c = Some s /\ 500 <= s))
  /\ (forall stack st r,
        let c := snd (handle stack st r) in
        resp_status c = Some 400 \/ resp_status c = Some 404 ->
        length (sp_events (c_span c)) = 1%nat /\ sp_status (c_span c) = Unset)
  /\ (forall err status,
        sp_status (c_span (respondError_nethttp new_ctx err status)) = Error).
Proof.
  split; [|split; [|split]].
  - intros err status. cbn zeta. rewrite respondError_new_ctx. cbn.
    split; [done|split; [|done]].
    destruct (status >=? 500) eqn:E; rewrite Z.geb_leb in E;
      [apply Z.leb_le in E | apply Z.leb_gt in E];
      split; intros; try discriminate; try done; lia.
  - apply handle_status_policy.
  - apply handle_client_fault_event.
  - intros. reflexivity.
Qed.

(* ------------------------------------------------------------------ *)
(** ** C2: the recovery boundary *)

(** C2: whenever a route's handler panics, [recoveryWithOtel] records an
    exception event with [exception.escaped = true], the panic value's
    type name, its message and the captured stack trace, sets the span
    status to [Error], answers 500 and leaves the state as it was; the
    server loop goes on serving the following requests. *)
Theorem C2_recovery_on_panic stack st r st' c v :
  dispatch st new_ctx r = Panicked st' c v ->
  let res := handle stack st r in
  fst res = st
  /\ (exists ev, In ev (sp_events (c_span (snd res)))
       /\ ev_stack ev = true
       /\ ev_message ev = String.append "panic: " (panic_sprint v)
       /\ ev_attrs ev =
            [("exception.escaped", ABool true);
             ("exception.type", AString (panic_type_name v));
             ("exception.message", AString (panic_sprint v));
             ("exception.stacktrace", AString stack)])
  /\ sp_status (c_span (snd res)) = Error
  /\ resp_status (snd res) = Some 500
  /\ (forall rs, serve stack st (r :: rs)
                 = (fst (serve stack st rs), snd res :: snd (serve stack st rs))).
Proof.
  intros Hd res. unfold res, handle. rewrite Hd.
  destruct r; cbn in Hd; unfold ret in Hd; try discriminate.
  injection Hd as <- <- <-. cbn.
  split; [done|]. split.
  { eexists. split; [left; reflexivity|]. cbn. auto. }
  split; [done|]. split; [done|].
  intros rs. unfold handle; cbn. by destruct (serve stack st rs).
Qed.

Lemma C2_witness :
  dispatch init_state new_ctx RPanic = Panicked init_state new_ctx (PString "simulated panic")
  /\ resp_status (snd (handle "trace" init_state RPanic)) = Some 500.
Proof.
  split; [reflexivity|].
  exact (proj1 (proj2 (proj2 (proj2
    (C2_recovery_on_panic "trace" init_state RPanic init_state new_ctx
       (PString "simulated panic") eq_refl))))).
Defined.

(* ------------------------------------------------------------------ *)
(** ** C3: error classification *)

(** C3 (counterexample): an update of an absent id with a malformed body
    is answered 404, not 400: the presence check runs before the body is
    bound. *)
Lemma C3_update_absent_malformed_body :
  resp_status (snd (handle "" init_state (RUpdate "5" (JMalformed "EOF")))) = Some 404.
Proof. reflexivity. Qed.

(** C3 (amended): the checks run in the order identifier, presence,
    body.  An identifier that [Atoi] rejects gives 400 on get, update and
    delete; a parsed identifier absent from the store gives 404 on get,
    update (whatever the body) and delete; a malformed body gives 400 on
    create, and on update of a present id; [/fail] gives 500 with the span
    marked failed. *)
Theorem C3_classification stack st :
  (forall p e, Atoi p = inr e ->
     resp_status (snd (handle stack st (RGet p))) = Some 400
     /\ (forall b, resp_status (snd (handle stack st (RUpdate p b))) = Some 400)
     /\ resp_status (snd (handle stack st (RDelete p))) = Some 400)
  /\ (forall p i, Atoi p = inl i -> store st !! i = None ->
     resp_status (snd (handle stack st (RGet p))) = Some 404
     /\ (forall b, resp_status (snd (handle stack st (RUpdate p b))) = Some 404)
     /\ resp_status (snd (handle stack st (RDelete p))) = Some 404)
  /\ (forall p i it m, Atoi p = inl i -> store st !! i = Some it ->
     resp_status (snd (handle stack st (RUpdate p (JMalformed m)))) = Some 400)
  /\ (forall m, resp_status (snd (handle stack st (RCreate (JMalformed m)))) = Some 400)
  /\ resp_status (snd (handle stack st RFail)) = Some 500
  /\ sp_status (c_span (snd (handle stack st RFail))) = Error.
Proof.
  unfold_handlers. cbn.
  split; [|split; [|split; [|split; [|split]]]].
  - intros p e He. rewrite He. cbn. repeat split; intros; rewrite ?He; reflexivity.
  - intros p i Hp Hi. rewrite Hp. cbn. rewrite Hi.
    repeat split; intros; rewrite ?Hp, ?Hi; reflexivity.
  - intros p i it m Hp Hi. rewrite Hp. cbn. rewrite Hi. reflexivity.
  - reflexivity.
  - reflexivity.
  - reflexivity.
Qed.

Lemma C3_witness :
  resp_status (snd (handle "" init_state (RGet "abc"))) = Some 400
  /\ resp_status (snd (handle "" init_state (RDelete "999"))) = Some 404.
Proof.
  split.
  - exact (proj1 (proj1 (C3_classification "" init_state) "abc" ErrSyntax eq_refl)).
  - exact (proj2 (proj2 (proj1 (proj2 (C3_classification "" init_state)) "999" 999
             eq_refl eq_refl))).
Defined.

(* ------------------------------------------------------------------ *)
(** ** C4: the id allocator *)

Lemma wrap_int64_small z : - 2^63 <= z < 2^63 -> wrap_int64 z = z.
Proof.
  intros Hz. unfold wrap_int64.
  destruct (Z.le_gt_cases 0 z).
  - rewrite Z.mod_small by lia.
    destruct (z >=? 2^63) eqn:E; rewrite Z.geb_leb in E;
      [apply Z.leb_le in E | apply Z.leb_gt in E]; lia.
  - replace (z mod 2^64) with (z + 2^64).
    + destruct (z + 2^64 >=? 2^63) eqn:E; rewrite Z.geb_leb in E;
        [apply Z.leb_le in E | apply Z.leb_gt in E]; lia.
    + apply Z.mod_unique with (-1); lia.
Qed.

Lemma alloc_iter_idSeq n :
  Z.of_nat n < 2^63 -> idSeq (alloc_iter n init_state) = Z.of_nat n.
Proof.
  induction n as [|n IH]; intros Hn; [reflexivity|].
  cbn [alloc_iter]. unfold idSeq_Add1. cbn [fst idSeq].
  rewrite IH by lia. rewrite wrap_int64_small by lia. lia.
Qed.

Lemma nth_alloc_eq n : Z.of_nat n + 1 < 2^63 -> nth_alloc n = Z.of_nat n + 1.
Proof.
  intros Hn. unfold nth_alloc, idSeq_Add1. cbn [snd].
  rewrite alloc_iter_idSeq by lia. apply wrap_int64_small. lia.
Qed.

Lemma nth_alloc_wraps : nth_alloc (Z.to_nat (2^63 - 1)) = - 2^63.
Proof.
  unfold nth_alloc, idSeq_Add1. cbn [snd].
  rewrite alloc_iter_idSeq by lia. rewrite Z2Nat.id by lia. reflexivity.
Qed.

Lemma handle_idSeq stack st r :
  let res := handle stack st r in
  (create_ok r = true ->
     idSeq (fst res) = wrap_int64 (idSeq st + 1)
     /\ created_id (snd res) = [wrap_int64 (idSeq st + 1)])
  /\ (create_ok r = false -> idSeq (fst res) = idSeq st /\ created_id (snd res) = []).
Proof.
  destruct r as [b| | | |  | |]; try destruct b; unfold_handlers; cbn;
    go_status; split; intros Hc; try discriminate; auto.
Qed.

Lemma sorted_shifted_seq b s k :
  StronglySorted Z.lt (map (fun j => b + Z.of_nat j) (seq s k)).
Proof.
  revert s. induction k as [|k IH]; intros s; cbn; constructor; [apply IH|].
  apply Forall_map, Forall_forall. intros j Hj. apply elem_of_seq in Hj. lia.
Qed.

Lemma serve_created_ids stack st rs :
  0 <= idSeq st ->
  idSeq st + Z.of_nat (length (List.filter create_ok rs)) < 2^63 ->
  let res := serve stack st rs in
  idSeq (fst res) = idSeq st + Z.of_nat (length (List.filter create_ok rs))
  /\ concat (map created_id (snd res))
     = map (fun j => idSeq st + 1 + Z.of_nat j) (seq 0 (length (List.filter create_ok rs))).
Proof.
  revert st. induction rs as [|r rs IH]; intros st H0 Hlt; cbn zeta; cbn [serve].
  { cbn. split; [lia|done]. }
  pose proof (handle_idSeq stack st r) as Hr. cbn zeta in Hr.
  destruct (handle stack st r) as [st1 c] eqn:Eh.
  cbn [List.filter] in *. destruct (create_ok r) eqn:Ec; cbn [length] in *.
  - destruct (proj1 Hr eq_refl) as [Hs Hc]. cbn [fst snd] in Hs, Hc.
    rewrite wrap_int64_small in Hs, Hc by lia.
    destruct (IH st1) as [IH1 IH2]; [lia|lia|].
    destruct (serve stack st1 rs) as [st2 cs]. cbn [fst snd map concat] in *.
    split; [lia|]. rewrite Hc, IH2. cbn. f_equal; [lia|].
    rewrite <- seq_shift, map_map. apply map_ext. intros j. rewrite Hs. lia.
  - destruct (proj2 Hr eq_refl) as [Hs Hc]. cbn [fst snd] in Hs, Hc.
    destruct (IH st1) as [IH1 IH2]; [lia|lia|].
    destruct (serve stack st1 rs) as [st2 cs]. cbn [fst snd map concat] in *.
    rewrite Hc, IH2, Hs. cbn. split; [lia|done].
Qed.

Lemma ssorted_lt_nodup (l : list Z) : StronglySorted Z.lt l -> NoDup l.
Proof.
  induction 1 as [|x l Sl IH Hf]; constructor; [|done].
  intros Hin. rewrite Forall_forall in Hf. specialize (Hf x Hin). lia.
Qed.

(** C4 (counterexample): the counter is a wrapping [int64]; the call
    after [2^63 - 1] allocations returns [-2^63], which is not greater
    than the first value returned, 1. *)
Lemma C4_allocator_wraps :
  nth_alloc 0 = 1 /\ nth_alloc (Z.to_nat (2^63 - 1)) = - 2^63
  /\ nth_alloc (Z.to_nat (2^63 - 1)) <= nth_alloc 0.
Proof.
  pose proof nth_alloc_wraps as W.
  assert (nth_alloc 0 = 1) as F by reflexivity.
  split; [done|split; [done|]]. rewrite W, F. lia.
Qed.

(** C4 (amended): as long as fewer than [2^63 - 1] ids have been
    allocated, the [(n+1)]-th call returns [n + 1] (so the values start at
    1 and strictly increase); for every sequence of requests served from a
    state with counter [k >= 0], the ids in the [201] responses are
    [k+1, k+2, ...] in issuance order, hence strictly increasing and
    pairwise distinct, provided [k] plus the number of successful creates
    stays below [2^63]. *)
Theorem C4_allocator_monotone :
  (forall n, Z.of_nat n + 1 < 2^63 -> nth_alloc n = Z.of_nat n + 1)
  /\ (forall stack st rs,
        0 <= idSeq st ->
        idSeq st + Z.of_nat (length (List.filter create_ok rs)) < 2^63 ->
        let ids := concat (map created_id (snd (serve stack st rs))) in
        ids = map (fun j => idSeq st + 1 + Z.of_nat j) (seq 0 (length (List.filter create_ok rs)))
        /\ StronglySorted Z.lt ids /\ NoDup ids).
Proof.
  split; [apply nth_alloc_eq|].
  intros stack st rs H0 Hlt ids.
  destruct (serve_created_ids stack st rs H0 Hlt) as [_ Hids].
  fold ids in Hids. rewrite Hids. split; [done|].
  pose proof (sorted_shifted_seq (idSeq st + 1) 0 (length (List.filter create_ok rs))) as S.
  split; [done|]. by apply ssorted_lt_nodup.
Qed.

Lemma C4_witness :
  nth_alloc 2 = 3
  /\ concat (map created_id (snd (serve "" init_state
        [RCreate (JObj "a"); RGet "1"; RCreate (JObj "b")]))) = [1; 2].
Proof.
  split.
  - apply (proj1 C4_allocator_monotone 2%nat). cbn. lia.
  - exact (proj1 (proj2 C4_allocator_monotone "" init_state
             [RCreate (JObj "a"); RGet "1"; RCreate (JObj "b")]
             ltac:(cbn; lia) ltac:(cbn; lia))).
Defined.

(* ------------------------------------------------------------------ *)
(** ** C5: the store invariant *)

Lemma keys_match_inv st : keys_match (store st) -> store_inv st.
Proof.
  intros H. split; [exact H|].
  intros k1 k2 it1 it2 H1 H2 Heq. apply H in H1, H2. congruence.
Qed.

Lemma keys_match_insert m k it : keys_match m -> ID it = k -> keys_match (<[k := it]> m).
Proof.
  intros H Hk j jt Hj. destruct (decide (k = j)) as [->|Hne].
  - rewrite lookup_insert_eq in Hj. by simplify_eq.
  - rewrite lookup_insert_ne in Hj by done. eauto.
Qed.

Lemma keys_match_delete m k : keys_match m -> keys_match (delete k m).
Proof.
  intros H j jt Hj. destruct (decide (k = j)) as [->|Hne].
  - by rewrite lookup_delete_eq in Hj.
  - rewrite lookup_delete_ne in Hj by done. eauto.
Qed.

Lemma handle_keys_match stack st r :
  keys_match (store st) -> keys_match (store (fst (handle stack st r))).
Proof.
  intros H. destruct r; unfold_handlers; cbn; repeat case_match; cbn; try done;
    try (apply keys_match_delete; done);
    apply keys_match_insert; cbn; eauto.
Qed.

Lemma serve_keys_match stack st rs :
  keys_match (store st) -> keys_match (store (fst (serve stack st rs))).
Proof.
  revert st. induction rs as [|r rs IH]; intros st H; cbn; [done|].
  pose proof (handle_keys_match stack st r H) as H1.
  destruct (handle stack st r) as [st1 c]. cbn in H1.
  specialize (IH st1 H1). destruct (serve stack st1 rs). exact IH.
Qed.

(** C5: the invariant holds initially and is preserved by every request
    (create, list, get, update, delete, fail, panic) and so by every
    sequence of requests. *)
Theorem C5_store_invariant stack st r :
  store_inv st ->
  store_inv (fst (handle stack st r))
  /\ (forall rs, store_inv (fst (serve stack st rs))).
Proof.
  intros [H _]. split.
  - apply keys_match_inv, handle_keys_match; exact H.
  - intros rs. apply keys_match_inv, serve_keys_match; exact H.
Qed.

Lemma store_inv_init : store_inv init_state.
Proof. apply keys_match_inv. intros k it Hk. cbn in Hk. by rewrite lookup_empty in Hk. Qed.

Lemma C5_witness :
  store_inv (fst (handle "" init_state (RCreate (JObj "widget")))).
Proof. exact (proj1 (C5_store_invariant "" init_state (RCreate (JObj "widget")) store_inv_init)). Defined.

(* ------------------------------------------------------------------ *)
(** ** C6: create then get *)

(** C6: if a create answers [201] with an item, a get whose path
    parameter parses to that item's id, served right after, answers [200]
    with the same item, whose name is the one supplied to create. *)
Theorem C6_create_then_get stack st name p item :
  c_resp (snd (handle stack st (RCreate (JObj name)))) = Some (201, BItem item) ->
  Atoi p = inl (ID item) ->
  c_resp (snd (handle stack (fst (handle stack st (RCreate (JObj name)))) (RGet p)))
    = Some (200, BItem item)
  /\ Name item = name.
Proof.
  unfold_handlers; cbn. intros Hc Hp. injection Hc as <-. cbn in Hp.
  rewrite Hp. cbn. rewrite lookup_insert_eq. done.
Qed.

Lemma C6_witness :
  c_resp (snd (handle "" (fst (handle "" init_state (RCreate (JObj "widget")))) (RGet "1")))
    = Some (200, BItem (mkItem 1 "widget")).
Proof.
  exact (proj1 (C6_create_then_get "" init_state "widget" "1" (mkItem 1 "widget")
                  eq_refl eq_refl)).
Defined.

(* ------------------------------------------------------------------ *)
(** ** C7: frame property of update *)

(** C7: updating a present id [i] with a well-formed body replaces the
    entry at [i] by the same [ID] with the new name, leaves every other
    entry and the counter unchanged, and a following get answers the
    updated item. *)
Theorem C7_update_frame stack st p i it name :
  Atoi p = inl i -> store st !! i = Some it ->
  let st' := fst (handle stack st (RUpdate p (JObj name))) in
  store st' !! i = Some (mkItem (ID it) name)
  /\ (forall j, j <> i -> store st' !! j = store st !! j)
  /\ idSeq st' = idSeq st
  /\ c_resp (snd (handle stack st' (RGet p))) = Some (200, BItem (mkItem (ID it) name)).
Proof.
  intros Hp Hi st'. unfold st'. unfold_handlers. cbn. rewrite Hp. cbn. rewrite Hi. cbn.
  split; [by rewrite lookup_insert_eq|].
  split; [intros j Hj; by rewrite lookup_insert_ne|].
  split; [done|].
  by rewrite lookup_insert_eq.
Qed.

Lemma C7_witness :
  let st := fst (handle "" init_state (RCreate (JObj "widget"))) in
  store (fst (handle "" st (RUpdate "1" (JObj "widget v2")))) !! 1
    = Some (mkItem 1 "widget v2").
Proof.
  exact (proj1 (C7_update_frame "" (fst (handle "" init_state (RCreate (JObj "widget"))))
                  "1" 1 (mkItem 1 "widget") "widget v2" eq_refl ltac:(vm_compute; reflexivity))).
Defined.

(* ------------------------------------------------------------------ *)
(** ** C8: delete *)

(** C8: after a delete of [i], a get of [i] answers 404; a delete of an
    absent [i] returns normally (no panic) with 404 and leaves the state
    unchanged. *)
Theorem C8_delete_semantics stack st p i :
  Atoi p = inl i ->
  resp_status (snd (handle stack (fst (handle stack st (RDelete p))) (RGet p))) = Some 404
  /\ (store st !! i = None ->
      exists c', dispatch st new_ctx (RDelete p) = Returned st c'
                 /\ resp_status c' = Some 404).
Proof.
  intros Hp. unfold_handlers. cbn. rewrite Hp. cbn. split.
  - destruct (store st !! i) eqn:Hi; cbn; rewrite ?Hp; cbn.
    + by rewrite lookup_delete_eq.
    + by rewrite Hi.
  - intros Hi. rewrite Hi. eexists. split; reflexivity.
Qed.

Lemma C8_witness :
  resp_status (snd (handle "" (fst (handle "" init_state (RDelete "1"))) (RGet "1"))) = Some 404.
Proof. exact (proj1 (C8_delete_semantics "" init_state "1" 1 eq_refl)). Defined.

(* ------------------------------------------------------------------ *)
(** ** C10: no effect on error *)

(** C10: a get, update or delete answered 400 or 404 leaves the store and
    the counter exactly as they were. *)
Theorem C10_error_no_effect stack st r :
  item_op r = true ->
  resp_status (snd (handle stack st r)) = Some 400
  \/ resp_status (snd (handle stack st r)) = Some 404 ->
  fst (handle stack st r) = st.
Proof.
  destruct r; try discriminate; intros _; unfold_handlers; cbn;
    repeat case_match; cbn; try done; intros [Hs | Hs]; discriminate.
Qed.

Lemma C10_witness :
  fst (handle "" init_state (RUpdate "7" (JObj "x"))) = init_state.
Proof. exact (C10_error_no_effect "" init_state (RUpdate "7" (JObj "x")) eq_refl (or_intror eq_refl)). Defined.

(* ------------------------------------------------------------------ *)
(** ** C9: concurrent update and delete *)

(** Run alone, the update thread has the effect of [updateItem]. *)
Lemma update_thread_alone st p i name :
  Atoi p = inl i ->
  fst (run (store st) [TUpdLoad i name] [0; 0]%nat)
  = store (fst (updateItem st new_ctx p (JObj name))).
Proof.
  intros Hp. unfold updateItem. rewrite Hp. cbn.
  destruct (store st !! i); reflexivity.
Qed.

(** Run alone, the delete thread has the effect of [deleteItem]. *)
Lemma delete_thread_alone st p i :
  Atoi p = inl i ->
  fst (run (store st) [TDelLoad i] [0; 0]%nat)
  = store (fst (deleteItem st new_ctx p)).
Proof.
  intros Hp. unfold deleteItem. rewrite Hp. cbn.
  destruct (store st !! i); reflexivity.
Qed.

(** Serial orders: the later operation wins and no deleted id comes
    back. *)
Example serial_update_first :
  run m0 [TUpdLoad 1 "widget v2"; TDelLoad 1] [0; 0; 1; 1]%nat
  = (∅, [TDone 200; TDone 204]).
Proof. vm_compute. reflexivity. Qed.

Example serial_delete_first :
  (run m0 [TUpdLoad 1 "widget v2"; TDelLoad 1] [1; 1; 0; 0]%nat).2
  = [TDone 404; TDone 204].
Proof. vm_compute. reflexivity. Qed.

(** C9 (code_bug): the update loads id 1, the delete then checks and
    removes it (answering 204), and the update's [store.Store] puts id 1
    back: the deleted id is resurrected and the update answers 200. *)
Lemma C9_update_resurrects_deleted :
  let '(m, ts) := run m0 [TUpdLoad 1 "widget v2"; TDelLoad 1] [0; 1; 1; 0]%nat in
  ts = [TDone 200; TDone 204] /\ m !! 1 = Some (mkItem 1 "widget v2").
Proof. vm_compute. split; reflexivity. Qed.


(* ------------------------------------------------------------------ *)
(** ** Further properties of main.go *)

Lemma map_fmap_list {A B} (f : A -> B) (l : list A) : map f l = f <$> l.
Proof. induction l as [|x l IH]; cbn; [done|]. by rewrite IH. Qed.

(** [GET /items] answers 200 with every stored item exactly once and
    changes nothing; when keys match ids, no id is listed twice. *)
Theorem X_listItems_exact stack st :
  exists l,
    c_resp (snd (handle stack st RList)) = Some (200, BItems l)
    /\ fst (handle stack st RList) = st
    /\ (forall it, In it l <-> exists k, store st !! k = Some it)
    /\ length l = size (store st)
    /\ (keys_match (store st) -> NoDup (map ID l)).
Proof.
  exists (map snd (map_to_list (store st))). unfold_handlers. cbn.
  split; [done|]. split; [done|]. split; [|split].
  - intros it. rewrite in_map_iff. split.
    + intros [[k x] [Hx Hin]]. cbn in Hx. subst x. exists k.
      apply elem_of_map_to_list. by apply list_elem_of_In.
    + intros [k Hk]. exists (k, it). split; [done|].
      apply list_elem_of_In. by apply elem_of_map_to_list.
  - by rewrite length_map, length_map_to_list.
  - intros Hm. rewrite map_map.
    replace (map (fun x => ID (snd x)) (map_to_list (store st)))
      with (map fst (map_to_list (store st))).
    + rewrite map_fmap_list. apply NoDup_fst_map_to_list.
    + apply map_ext_in. intros [k x] Hin. cbn. symmetry. apply Hm.
      apply elem_of_map_to_list. by apply list_elem_of_In.
Qed.


(** Reads never change the state: [GET /items/:id] leaves the store and
    the counter as they were, whatever it answers. *)
Theorem X_get_read_only stack st p : fst (handle stack st (RGet p)) = st.
Proof. unfold_handlers. cbn. by repeat case_match. Qed.


(** Two updates of the same id with well-formed bodies leave the state
    the second alone would: the last write wins. *)
Theorem X_update_last_wins stack st p a b :
  fst (handle stack (fst (handle stack st (RUpdate p (JObj a)))) (RUpdate p (JObj b)))
  = fst (handle stack st (RUpdate p (JObj b))).
Proof.
  unfold_handlers. cbn.
  destruct (Atoi p) as [i|e] eqn:Hp; cbn; rewrite ?Hp; cbn; [|done].
  destruct (store st !! i) as [it|] eqn:Hi; cbn; rewrite ?Hp; cbn; rewrite ?Hi; [|done].
  rewrite lookup_insert_eq. cbn. by rewrite insert_insert_eq.
Qed.

(** A delete after an update of the same path parameter leaves the
    state the delete alone would. *)
Theorem X_update_then_delete stack st p b :
  fst (handle stack (fst (handle stack st (RUpdate p b))) (RDelete p))
  = fst (handle stack st (RDelete p)).
Proof.
  unfold_handlers. cbn.
  destruct (Atoi p) as [i|e] eqn:Hp; cbn; rewrite ?Hp; cbn; [|done].
  destruct (store st !! i) as [it|] eqn:Hi; cbn; [|rewrite ?Hp; cbn; by rewrite ?Hi].
  destruct b; cbn; rewrite ?Hp; cbn; rewrite ?Hi, ?lookup_insert_eq; cbn;
    rewrite ?delete_insert_eq; done.
Qed.

Lemma keys_bounded_fresh st : keys_bounded st -> store st !! (idSeq st + 1) = None.
Proof.
  intros Hb. destruct (store st !! (idSeq st + 1)) as [it|] eqn:E; [|done].
  apply Hb in E. lia.
Qed.

Lemma keys_bounded_init : keys_bounded init_state.
Proof. intros k it Hk. cbn in Hk. by rewrite lookup_empty in Hk. Qed.

(** While the counter has not reached [2^63 - 1], every stored key lies
    in [1 .. idSeq]; this is kept by every request, so a create always
    takes a fresh key and the store grows by one entry. *)
Theorem X_keys_bounded stack st r :
  keys_bounded st -> 0 <= idSeq st < 2^63 - 1 ->
  keys_bounded (fst (handle stack st r))
  /\ (create_ok r = true ->
      store st !! (idSeq st + 1) = None
      /\ size (store (fst (handle stack st r))) = S (size (store st))).
Proof.
  intros Hb Hr. pose proof (keys_bounded_fresh st Hb) as Hf. split.
  - destruct r as [b| |p|p b|p| |]; unfold_handlers; cbn; try done.
    + destruct b; cbn; [done|]. rewrite wrap_int64_small by lia.
      intros k it Hk. cbn in Hk. rewrite lookup_insert in Hk.
      cbn. case_decide; [lia|]. apply Hb in Hk. lia.
    + by repeat case_match.
    + repeat case_match; cbn; try done.
      intros k it' Hk. cbn in Hk. rewrite lookup_insert in Hk.
      case_decide; subst; cbn; eapply Hb; eassumption.
    + repeat case_match; cbn; try done.
      intros k it' Hk. cbn in Hk. rewrite lookup_delete in Hk.
      case_decide; [discriminate|]. eapply Hb; eassumption.
  - destruct r as [b| | | | | |]; try discriminate. destruct b; try discriminate.
    intros _. split; [done|]. unfold_handlers. cbn.
    rewrite wrap_int64_small by lia. by apply map_size_insert_None.
Qed.

Lemma X_keys_bounded_witness :
  keys_bounded (fst (handle "" init_state (RCreate (JObj "a")))).
Proof.
  exact (proj1 (X_keys_bounded "" init_state (RCreate (JObj "a")) keys_bounded_init
                  ltac:(cbn; lia))).
Defined.

(** Deleting the id a create has just returned (on a fresh key) gives
    back the store as it was before the create; the counter stays
    advanced. *)
Theorem X_create_then_delete stack st name p :
  keys_bounded st -> 0 <= idSeq st < 2^63 - 1 -> Atoi p = inl (idSeq st + 1) ->
  let st1 := fst (handle stack st (RCreate (JObj name))) in
  let res := handle stack st1 (RDelete p) in
  store (fst res) = store st /\ idSeq (fst res) = idSeq st + 1
  /\ resp_status (snd res) = Some 204.
Proof.
  intros Hb Hr Hp. pose proof (keys_bounded_fresh st Hb) as Hf.
  unfold_handlers. cbn. rewrite wrap_int64_small by lia. rewrite Hp. cbn.
  rewrite lookup_insert_eq. cbn. rewrite delete_insert_eq, delete_id by done.
  done.
Qed.

Lemma X_create_then_delete_witness :
  store (fst (handle "" (fst (handle "" init_state (RCreate (JObj "x")))) (RDelete "1")))
  = store init_state.
Proof.
  exact (proj1 (X_create_then_delete "" init_state "x" "1" keys_bounded_init
                  ltac:(cbn; lia) eq_refl)).
Defined.

(* ------------------------------------------------------------------ *)
(** ** Properties of strconv.Atoi *)

Lemma digit_val_range c : is_digit c = true -> 0 <= digit_val c <= 9.
Proof.
  unfold is_digit, digit_val. intros H. apply andb_prop in H as [H1 H2].
  apply Nat.leb_le in H1, H2. lia.
Qed.

Lemma atoi_fast_loop_bound s n v :
  0 <= n -> atoi_fast_loop s n = inl v ->
  0 <= v < (n + 1) * 10 ^ Z.of_nat (String.length s).
Proof.
  revert n. induction s as [|c s IH]; intros n Hn H; cbn in H.
  - injection H as <-. cbn. lia.
  - destruct (is_digit c) eqn:Hc; [|discriminate].
    pose proof (digit_val_range c Hc) as Hd.
    apply IH in H; [|lia].
    cbn [String.length]. rewrite Nat2Z.inj_succ, Z.pow_succ_r by lia.
    assert (0 < 10 ^ Z.of_nat (String.length s)) by (apply Z.pow_pos_nonneg; lia).
    nia.
Qed.

Lemma atoi_fast_loop_digits s n v : atoi_fast_loop s n = inl v -> all_digits s = true.
Proof.
  revert n. induction s as [|c s IH]; intros n H; cbn in *; [done|].
  destruct (is_digit c); [|discriminate]. cbn. eauto.
Qed.

Lemma atoi_fast_loop_total s n : all_digits s = true -> exists v, atoi_fast_loop s n = inl v.
Proof.
  revert n. induction s as [|c s IH]; intros n H; cbn in *; [eauto|].
  destruct (is_digit c); [|discriminate]. cbn in H. eauto.
Qed.

Lemma parse_uint10_loop_spec s n v :
  0 <= n -> parse_uint10_loop s n = inl v -> 0 <= v /\ all_digits s = true.
Proof.
  revert n. induction s as [|c s IH]; intros n Hn H; cbn in H.
  - injection H as <-. cbn. lia.
  - destruct (is_digit c) eqn:Hc; cbn in H; [|discriminate].
    pose proof (digit_val_range c Hc) as Hd.
    destruct (n >=? uint64_cutoff); [discriminate|].
    destruct (n * 10 + digit_val c >? max_uint64); [discriminate|].
    apply IH in H as [H1 H2]; [|lia]. cbn. rewrite Hc. auto.
Qed.

Lemma ParseUint10_spec b u :
  ParseUint10 b = inl u -> 0 <= u /\ b <> "" /\ all_digits b = true.
Proof.
  unfold ParseUint10. destruct b as [|c b]; [discriminate|]. intros H.
  apply parse_uint10_loop_spec in H as [H1 H2]; [|lia]. done.
Qed.

Lemma ParseInt10_spec s n :
  ParseInt10 s = inl n -> - 2^63 <= n <= 2^63 - 1 /\ int_shaped s = true.
Proof.
  unfold ParseInt10. destruct s as [|c rest]; [discriminate|].
  destruct (Ascii.eqb c "+"%char) eqn:E1; [|destruct (Ascii.eqb c "-"%char) eqn:E2];
    cbn -[ParseUint10];
    destruct (ParseUint10 _) as [u|[|]] eqn:Hu; intros H; try discriminate;
    unfold max_uint64 in H; cbn in H; try discriminate;
    rewrite ?E1, ?E2; cbn;
    apply ParseUint10_spec in Hu as (Hu0 & Hne & Hd);
    repeat match type of H with
    | context [if ?b then _ else _] =>
        let E := fresh "E" in destruct b eqn:E; try discriminate
    end;
    injection H as <-; rewrite ?Z.geb_leb, ?Z.gtb_ltb, ?Z.leb_gt, ?Z.ltb_ge in *;
    (split; [lia|]);
    try (apply String.eqb_neq in Hne; rewrite Hne); done.
Qed.

Lemma pow10_le a b : (a <= b)%nat -> 10 ^ Z.of_nat a <= 10 ^ Z.of_nat b.
Proof. intros H. apply Z.pow_le_mono_r; lia. Qed.

(** Whatever [strconv.Atoi] accepts is an optional sign followed by
    decimal digits, and its value fits a 64-bit [int]. *)
Theorem X_Atoi_accepts s n :
  Atoi s = inl n -> - 2^63 <= n <= 2^63 - 1 /\ int_shaped s = true.
Proof.
  unfold Atoi. destruct ((0 <? String.length s)%nat && (String.length s <? 19)%nat) eqn:Hl;
    [|apply ParseInt10_spec].
  apply andb_prop in Hl as [_ Hl]. apply Nat.ltb_lt in Hl.
  destruct s as [|c rest]; [discriminate|]. cbn [String.length] in Hl.
  destruct (Ascii.eqb c "-"%char) eqn:E1; destruct (Ascii.eqb c "+"%char) eqn:E2;
    cbn [orb int_shaped]; rewrite ?E1, ?E2; cbn [orb].
  1-3: destruct rest as [|c' r']; [discriminate|];
       destruct (atoi_fast_loop (String c' r') 0) as [v|e] eqn:Hf; intros H; [|discriminate];
       injection H as <-;
       pose proof (atoi_fast_loop_bound _ _ _ (Z.le_refl 0) Hf) as Hb;
       pose proof (pow10_le (String.length (String c' r')) 17 ltac:(cbn in *; lia)) as Hp;
       apply atoi_fast_loop_digits in Hf; rewrite Hf;
       (split; [change (10 ^ Z.of_nat 17) with 100000000000000000 in Hp; lia | done]).
  intros H. pose proof (atoi_fast_loop_bound _ _ _ (Z.le_refl 0) H) as Hb.
  pose proof (pow10_le (String.length (String c rest)) 18 ltac:(cbn in *; lia)) as Hp.
  apply atoi_fast_loop_digits in H.
  split; [change (10 ^ Z.of_nat 18) with 1000000000000000000 in Hp; lia | done].
Qed.

Lemma X_Atoi_accepts_witness : - 2^63 <= -7 <= 2^63 - 1 /\ int_shaped "-7" = true.
Proof. exact (X_Atoi_accepts "-7" (-7) eq_refl). Defined.

(** Conversely, every string of fewer than 19 bytes made of an optional
    sign and at least one decimal digit is accepted by [strconv.Atoi]. *)
Theorem X_Atoi_short_total s :
  int_shaped s = true -> (String.length s < 19)%nat -> exists n, Atoi s = inl n.
Proof.
  intros Hs Hl. unfold Atoi.
  destruct s as [|c rest]; [discriminate|].
  replace ((0 <? String.length (String c rest))%nat && (String.length (String c rest) <? 19)%nat)
    with true by (symmetry; apply andb_true_intro; split; apply Nat.ltb_lt; cbn in *; lia).
  cbn [int_shaped] in Hs.
  destruct (Ascii.eqb c "-"%char) eqn:E1; destruct (Ascii.eqb c "+"%char) eqn:E2;
    cbn [orb] in *.
  1-3: destruct rest as [|c' r']; [discriminate|];
       apply andb_prop in Hs as [_ Hs];
       destruct (atoi_fast_loop_total (String c' r') 0 Hs) as [v Hv];
       rewrite Hv; eauto.
  apply (atoi_fast_loop_total (String c rest) 0 Hs).
Qed.

Lemma X_Atoi_short_total_witness : exists n, Atoi "+123" = inl n.
Proof. exact (X_Atoi_short_total "+123" eq_refl ltac:(cbn; lia)). Defined.

(* ------------------------------------------------------------------ *)
(** ** Properties of the net/http variants *)



Ltac unfold_net :=
  unfold NetHTTP.serve_logged, NetHTTP.itemHandler, NetHTTP.itemsHandler,
    NetHTTP.createItem, NetHTTP.listItems, NetHTTP.getItem, NetHTTP.updateItem,
    NetHTTP.deleteItem, NetHTTP.respondError, NetHTTP.http_Error, NetHTTP.Write,
    NetHTTP.WriteHeader, NetHTTP.set_w, NetHTTP.new_nctx, NetHTTP.new_writer in *.


(** In the net/http variant a malformed id is answered 400 whatever the
    method; with a well-formed id, a method other than GET, PUT and DELETE
    is answered 405 without touching the state or the span; on [/items]
    every method but POST and GET gets that 405. *)
Theorem X_nethttp_method_not_allowed st method path b :
  (forall e, Atoi (String.substring 7 (String.length path) path) = inr e ->
     NetHTTP.w_status (NetHTTP.n_w (snd (NetHTTP.itemHandler st NetHTTP.new_nctx method path b)))
       = Some 400
     /\ fst (NetHTTP.itemHandler st NetHTTP.new_nctx method path b) = st)
  /\ (forall i, Atoi (String.substring 7 (String.length path) path) = inl i ->
      method <> "GET" -> method <> "PUT" -> method <> "DELETE" ->
      let res := NetHTTP.itemHandler st NetHTTP.new_nctx method path b in
      fst res = st /\ NetHTTP.w_status (NetHTTP.n_w (snd res)) = Some 405
      /\ NetHTTP.n_span (snd res) = new_span)
  /\ (method <> "POST" -> method <> "GET" ->
      let res := NetHTTP.itemsHandler st NetHTTP.new_nctx method b in
      fst res = st /\ NetHTTP.w_status (NetHTTP.n_w (snd res)) = Some 405
      /\ NetHTTP.n_span (snd res) = new_span).
Proof.
  split; [|split].
  - intros e He. unfold NetHTTP.itemHandler. rewrite He. done.
  - intros i Hi H1 H2 H3. unfold NetHTTP.itemHandler. rewrite Hi.
    apply String.eqb_neq in H1, H2, H3. rewrite H1, H2, H3. done.
  - intros H1 H2. unfold NetHTTP.itemsHandler.
    apply String.eqb_neq in H1, H2. rewrite H1, H2. done.
Qed.

Lemma X_nethttp_method_not_allowed_witness :
  NetHTTP.w_status (NetHTTP.n_w (snd (NetHTTP.itemHandler init_state NetHTTP.new_nctx
     "PATCH" "/items/1" (JObj "x")))) = Some 405.
Proof.
  exact (proj1 (proj2 (proj1 (proj2 (X_nethttp_method_not_allowed init_state "PATCH"
     "/items/1" (JObj "x"))) 1 eq_refl ltac:(discriminate) ltac:(discriminate)
     ltac:(discriminate)))).
Defined.

(** [part_002]'s [loggingMiddleware] logs the status actually sent: the
    [statusRecorder] ends equal to the response status on every request. *)
Theorem X_nethttp_logged_status st method path b :
  let '(_, c, l) := NetHTTP.serve_logged st method path b in
  NetHTTP.w_status (NetHTTP.n_w c) = Some (NetHTTP.l_status l).
Proof.
  unfold_net. cbn. repeat case_match; simplify_eq; cbn in *; done.
Qed.


Lemma count_204_insert (ts : list NetInterleaving.Thread) k t t' :
  ts !! k = Some t ->
  (NetInterleaving.count_204 (<[k := t']> ts) + NetInterleaving.is_204 t
   = NetInterleaving.count_204 ts + NetInterleaving.is_204 t')%nat.
Proof.
  revert k. induction ts as [|x ts IH]; intros k Hk; [discriminate|].
  destruct k as [|k].
  - cbn in Hk. injection Hk as ->. cbn. lia.
  - change (<[S k := t']> (x :: ts)) with (x :: <[k := t']> ts).
    cbn in Hk. specialize (IH k Hk). cbn [NetInterleaving.count_204]. lia.
Qed.

Lemma net_run_at_most_one id m ts sched :
  dels_of id ts ->
  (NetInterleaving.count_204 ts + (if m !! id then 1 else 0) <= 1)%nat ->
  (NetInterleaving.count_204 (snd (NetInterleaving.run m ts sched)) <= 1)%nat.
Proof.
  unfold dels_of. revert m ts. induction sched as [|k sched IH]; intros m ts Hd Hc; cbn.
  - destruct (m !! id); lia.
  - destruct (ts !! k) as [t|] eqn:Hk; [|by apply IH].
    pose proof (count_204_insert ts k t) as Hins.
    assert (match t with NetInterleaving.TDel j => j = id | _ => True end) as Ht
      by (rewrite Forall_lookup in Hd; exact (Hd k t Hk)).
    destruct t as [j|s]; cbn.
    + subst j. destruct (m !! id) as [it|] eqn:Hm; cbn.
      * apply IH.
        -- apply Forall_insert; [done|]. done.
        -- specialize (Hins (NetInterleaving.TDone 204) Hk). cbn in Hins.
           rewrite lookup_delete_eq. lia.
      * apply IH.
        -- apply Forall_insert; [done|]. done.
        -- specialize (Hins (NetInterleaving.TDone 404) Hk). cbn in Hins.
           rewrite Hm. lia.
    + apply IH.
      * apply Forall_insert; [done|]. done.
      * specialize (Hins (NetInterleaving.TDone s) Hk). lia.
Qed.

(** In the net/http variants, however the deletes of one id by any number
    of concurrent requests interleave, at most one of them answers 204. *)
Theorem X_nethttp_concurrent_deletes id m n sched :
  (NetInterleaving.count_204
     (snd (NetInterleaving.run m (repeat (NetInterleaving.TDel id) n) sched)) <= 1)%nat.
Proof.
  apply (net_run_at_most_one id).
  - induction n as [|n IHn]; cbn; constructor; auto.
  - assert (NetInterleaving.count_204 (repeat (NetInterleaving.TDel id) n) = 0%nat) as ->
      by (induction n; cbn; auto).
    destruct (m !! id); lia.
Qed.
